(** * MoaMoa landing page: the chat demo widget and the policy modal

    A shallow embedding of [static/js/tci_landing.js].  The script keeps
    its state in the object [tciMoamoaApp]; here that object is a record
    that every handler takes and returns.  The parts of the browser the
    handlers touch (the markup of [#tci-chat-messages], the timer queue
    of [setTimeout], the value of [Date.now()]) are explicit fields and
    arguments. *)

From Stdlib Require Import List ZArith NArith Bool String Ascii Lia.
Import ListNotations.

(** ** JavaScript strings

    A JavaScript string is a sequence of UTF-16 code units; [includes],
    [trim], [replace] and [+=] all work on code units. *)

Module JS.

Definition codeunit := N.
Definition jsstring := list codeunit.

(** The literals of the script are written here as they are in the
    source file, which is UTF-8; [decode] turns the bytes into the code
    units the engine holds. *)

Definition cont (b : N) : N := N.land b 63.

Fixpoint utf8_decode (bs : list N) : list N :=
  match bs with
  | [] => []
  | b0 :: r0 =>
    if (b0 <? 128)%N then b0 :: utf8_decode r0
    else match r0 with
    | [] => []
    | b1 :: r1 =>
      if (b0 <? 224)%N then
        N.lor (N.shiftl (N.land b0 31) 6) (cont b1) :: utf8_decode r1
      else match r1 with
      | [] => []
      | b2 :: r2 =>
        if (b0 <? 240)%N then
          N.lor (N.shiftl (N.land b0 15) 12)
                (N.lor (N.shiftl (cont b1) 6) (cont b2)) :: utf8_decode r2
        else match r2 with
        | [] => []
        | b3 :: r3 =>
          N.lor (N.shiftl (N.land b0 7) 18)
                (N.lor (N.shiftl (cont b1) 12)
                       (N.lor (N.shiftl (cont b2) 6) (cont b3)))
            :: utf8_decode r3
        end
      end
    end
  end.

Definition utf16_encode (cp : N) : list codeunit :=
  if (cp <? 65536)%N then [cp]
  else let v := (cp - 65536)%N in
       [(55296 + N.shiftr v 10)%N; (56320 + N.land v 1023)%N].

Definition decode (s : string) : jsstring :=
  flat_map utf16_encode
           (utf8_decode (map N_of_ascii (list_ascii_of_string s))).

(** [a === b] on strings. *)
Fixpoint str_eqb (a b : jsstring) : bool :=
  match a, b with
  | [], [] => true
  | x :: a', y :: b' => (x =? y)%N && str_eqb a' b'
  | _, _ => false
  end.

(** Truthiness of a string: the empty string is the only falsy one. *)
Definition truthy (s : jsstring) : bool :=
  match s with [] => false | _ :: _ => true end.

(** [String.prototype.includes]: [p] occurs in [s] at some position,
    compared code unit by code unit. *)
Fixpoint startsWith (s p : jsstring) {struct p} : bool :=
  match p, s with
  | [], _ => true
  | _ :: _, [] => false
  | x :: p', y :: s' => (x =? y)%N && startsWith s' p'
  end.

Fixpoint includes (s p : jsstring) : bool :=
  startsWith s p ||
  match s with
  | [] => false
  | _ :: s' => includes s' p
  end.

(** [String.prototype.trim] strips WhiteSpace and LineTerminator code
    points (ECMA-262, 22.1.3.32) from both ends. *)
Definition isWhiteSpace (c : codeunit) : bool :=
  ((9 <=? c) && (c <=? 13) || (c =? 32) || (c =? 160) || (c =? 5760)
   || (8192 <=? c) && (c <=? 8202) || (c =? 8232) || (c =? 8233)
   || (c =? 8239) || (c =? 8287) || (c =? 12288) || (c =? 65279))%N.

Fixpoint trimStart (s : jsstring) : jsstring :=
  match s with
  | [] => []
  | c :: s' => if isWhiteSpace c then trimStart s' else s
  end.

Definition trimEnd (s : jsstring) : jsstring := rev (trimStart (rev s)).

Definition trim (s : jsstring) : jsstring := trimEnd (trimStart s).

(** [s.replace(re, '')] with the global pattern of the click handlers,
    which matches the double quote U+0022: every one of them removed. *)
Definition stripQuotes (s : jsstring) : jsstring :=
  filter (fun c => negb (c =? 34)%N) s.

End JS.

Import JS.

(** A literal of the script: its code units, worked out where it is
    written. *)
Abbreviation lit s :=
  (ltac:(let v := eval vm_compute in (decode s%string) in exact v))
  (only parsing).

(** The markup literals of the script are single-quoted and contain
    double quotes.  They are written below with an apostrophe wherever
    the script has a double quote (no literal of the script contains an
    apostrophe), and [requote] puts U+0022 back. *)
Definition requote (s : jsstring) : jsstring :=
  map (fun c => if (c =? 39)%N then 34%N else c) s.

Abbreviation markup s :=
  (ltac:(let v := eval vm_compute in (requote (decode s%string)) in exact v))
  (only parsing).

(** ** The data model of the chat demo *)

Inductive Sender := user | bot.

Record ChatMessage := mkMsg {
  id : Z;
  sender : Sender;
  text : jsstring
}.

(** The object [tciMoamoaApp]. *)
Record App := mkApp {
  tciMobileMenuOpen : bool;
  tciChatMessages : list ChatMessage;
  tciIsTyping : bool
}.

(** A callback waiting in the timer queue.  The function given to
    [setTimeout] in [tciHandleChatSend] closes over [tciInputText] only;
    [due] is the time of the call plus the delay. *)
Record Timer := mkTimer {
  due : Z;
  captured : jsstring
}.

(** The page: the application object, the element [#tci-chat-messages]
    (its markup, and whether it is scrolled to its end) and the timer
    queue.  [tciInitChatDemo] reads [$tciChatMessages[0].scrollHeight]
    in its first render, so the widget only ever starts on a page that
    has the element; it is therefore a plain field. *)
Record Page := mkPage {
  app : App;
  chatHtml : jsstring;
  chatAtBottom : bool;
  timers : list Timer
}.

Definition push (m : ChatMessage) (a : App) : App :=
  mkApp (tciMobileMenuOpen a) (tciChatMessages a ++ [m]) (tciIsTyping a).

Definition setTyping (b : bool) (a : App) : App :=
  mkApp (tciMobileMenuOpen a) (tciChatMessages a) b.

Definition onApp (f : App -> App) (p : Page) : Page :=
  mkPage (f (app p)) (chatHtml p) (chatAtBottom p) (timers p).

Definition setTimeout (t : Timer) (p : Page) : Page :=
  mkPage (app p) (chatHtml p) (chatAtBottom p) (timers p ++ [t]).

(** [$tciChatMessages.html(h)] followed by
    [$tciChatMessages.scrollTop($tciChatMessages[0].scrollHeight)]. *)
Definition writeChat (h : jsstring) (p : Page) : Page :=
  mkPage (app p) h true (timers p).

(** ** Rendering *)

(** The render closure local to [tciInitChatDemo] (source lines 96-126).
    [tciHtml] is the value of the local variable of that name when the
    loops are done; [forEach] with [+=] is a left fold. *)
Module tciInitChatDemo.

Definition tciHtml (a : App) : jsstring :=
  let tciHtml : jsstring := [] in
  let tciHtml :=
    fold_left (fun tciHtml tciMsg =>
      match sender tciMsg with
      | user =>
        let tciHtml := tciHtml ++ markup "<div class='flex justify-end'>" in
        let tciHtml := tciHtml ++ markup "<div class='max-w-[80%] p-3 rounded-2xl text-sm bg-blue-500 text-white rounded-tr-none'>" in
        let tciHtml := tciHtml ++ text tciMsg in
        tciHtml ++ markup "</div></div>"
      | bot =>
        let tciHtml := tciHtml ++ markup "<div class='flex justify-start'>" in
        let tciHtml := tciHtml ++ markup "<div class='w-8 h-8 bg-yellow-400 rounded-full flex items-center justify-center mr-2 text-white font-bold text-xs flex-shrink-0'>M</div>" in
        let tciHtml := tciHtml ++ markup "<div class='max-w-[80%] p-3 rounded-2xl text-sm bg-gray-100 text-gray-800 rounded-tl-none'>" in
        let tciHtml := tciHtml ++ text tciMsg in
        tciHtml ++ markup "</div></div>"
      end) (tciChatMessages a) tciHtml in
  if tciIsTyping a then
    let tciHtml := tciHtml ++ markup "<div class='flex justify-start'>" in
    let tciHtml := tciHtml ++ markup "<div class='w-8 h-8 bg-yellow-400 rounded-full flex items-center justify-center mr-2 text-white font-bold text-xs'>M</div>" in
    let tciHtml := tciHtml ++ markup "<div class='bg-gray-100 p-3 rounded-2xl rounded-tl-none text-xs text-gray-500'>" in
    let tciHtml := tciHtml ++ lit "입력 중..." in
    tciHtml ++ markup "</div></div>"
  else tciHtml.

Definition tciRenderMessages (p : Page) : Page :=
  writeChat (tciHtml (app p)) p.

End tciInitChatDemo.

(** [tciMoamoaApp.tciRenderMessages] (source lines 189-220). *)
Definition tciHtml (a : App) : jsstring :=
  let tciHtml : jsstring := [] in
  let tciHtml :=
    fold_left (fun tciHtml tciMsg =>
      match sender tciMsg with
      | user =>
        let tciHtml := tciHtml ++ markup "<div class='flex justify-end'>" in
        let tciHtml := tciHtml ++ markup "<div class='max-w-[80%] p-3 rounded-2xl text-sm bg-blue-500 text-white rounded-tr-none'>" in
        let tciHtml := tciHtml ++ text tciMsg in
        tciHtml ++ markup "</div></div>"
      | bot =>
        let tciHtml := tciHtml ++ markup "<div class='flex justify-start'>" in
        let tciHtml := tciHtml ++ markup "<div class='w-8 h-8 bg-yellow-400 rounded-full flex items-center justify-center mr-2 text-white font-bold text-xs flex-shrink-0'>M</div>" in
        let tciHtml := tciHtml ++ markup "<div class='max-w-[80%] p-3 rounded-2xl text-sm bg-gray-100 text-gray-800 rounded-tl-none'>" in
        let tciHtml := tciHtml ++ text tciMsg in
        tciHtml ++ markup "</div></div>"
      end) (tciChatMessages a) tciHtml in
  if tciIsTyping a then
    let tciHtml := tciHtml ++ markup "<div class='flex justify-start'>" in
    let tciHtml := tciHtml ++ markup "<div class='w-8 h-8 bg-yellow-400 rounded-full flex items-center justify-center mr-2 text-white font-bold text-xs'>M</div>" in
    let tciHtml := tciHtml ++ markup "<div class='bg-gray-100 p-3 rounded-2xl rounded-tl-none text-xs text-gray-500'>" in
    let tciHtml := tciHtml ++ lit "입력 중..." in
    tciHtml ++ markup "</div></div>"
  else tciHtml.

Definition tciRenderMessages (p : Page) : Page :=
  writeChat (tciHtml (app p)) p.

(** ** Sending a message *)

(** The reply chosen by the callback of [setTimeout] (lines 167-173). *)
Definition tciBotResponse (tciInputText : jsstring) : jsstring :=
  let tciBotResponse := lit "알겠어! 기록해둘게." in
  if includes tciInputText (lit "공책")
     || includes tciInputText (lit "연필")
     || includes tciInputText (lit "문구점")
  then lit "오, 공부 열심히 하려나보다! 📚 [학용품]으로 3,000원 기록 완료! 참 잘했어!"
  else if includes tciInputText (lit "과자")
          || includes tciInputText (lit "떡볶이")
  then lit "맛있게 먹었니? 😋 [간식]으로 분류했어. 이번 달 간식비가 조금 많아지는데 주의해볼까?"
  else tciBotResponse.

(** The callback itself (lines 166-183), run with [Date.now() = now]. *)
Definition onTimeout (now : Z) (tciInputText : jsstring) (p : Page) : Page :=
  let p := onApp (push (mkMsg (now + 1) bot (tciBotResponse tciInputText))) p in
  let p := onApp (setTyping false) p in
  tciRenderMessages p.

(** [tciMoamoaApp.tciHandleChatSend] (lines 149-184), called with
    [Date.now() = now]. *)
Definition tciHandleChatSend (now : Z) (tciInputText : jsstring) (p : Page)
  : Page :=
  if negb (truthy (trim tciInputText)) || tciIsTyping (app p) then p
  else
    let tciUserMsg := mkMsg now user tciInputText in
    let p := onApp (push tciUserMsg) p in
    let p := onApp (setTyping true) p in
    let p := tciRenderMessages p in
    setTimeout (mkTimer (now + 1500) tciInputText) p.

(** ** The widget in the event loop *)

(** [tciMoamoaApp] as the script creates it (lines 14-25). *)
Definition tciMoamoaApp : App :=
  mkApp false
        [mkMsg 1 bot (lit "안녕! 오늘 학용품 산 거 있어?")]
        false.

(** The page after [$(document).ready]: [tciInitChatDemo] has rendered
    the seed message with its local closure; no timer is waiting. *)
Definition ready : Page :=
  tciInitChatDemo.tciRenderMessages (mkPage tciMoamoaApp [] false []).

(** What can happen to the widget afterwards.  Every handler reads the
    clock at most once; [now] is that reading. *)
Inductive Event :=
| QuickInputClick (now : Z) (label : jsstring)
    (* click on [#tci-quick-input], whose text is [label] *)
| ChatSendClick (now : Z) (label : jsstring)
    (* click on [#tci-chat-send]; [label] is the text of the quick input *)
| CallHandleChatSend (now : Z) (tciInputText : jsstring)
    (* [window.tciMoamoaApp.tciHandleChatSend(tciInputText)] *)
| CallRenderMessages
    (* [window.tciMoamoaApp.tciRenderMessages()] *)
| TimerFires (now : Z).
    (* the event loop runs the oldest waiting callback *)

(** Handler of [#tci-quick-input] (lines 132-135). *)
Definition onQuickInputClick (now : Z) (label : jsstring) (p : Page) : Page :=
  let tciInputText := stripQuotes label in
  tciHandleChatSend now tciInputText p.

(** Handler of [#tci-chat-send] (lines 138-143). *)
Definition onChatSendClick (now : Z) (label : jsstring) (p : Page) : Page :=
  let tciInputText := stripQuotes label in
  if truthy (trim tciInputText) then tciHandleChatSend now tciInputText p
  else p.

(** A timer runs once: it leaves the queue when its callback is called.
    All timers of the widget have the same delay, so the oldest is the
    first of the queue.  [None]: there is nothing to run. *)
Definition fire (now : Z) (p : Page) : option Page :=
  match timers p with
  | [] => None
  | t :: rest =>
    Some (onTimeout now (captured t)
                    (mkPage (app p) (chatHtml p) (chatAtBottom p) rest))
  end.

Definition step (e : Event) (p : Page) : option Page :=
  match e with
  | QuickInputClick now label => Some (onQuickInputClick now label p)
  | ChatSendClick now label => Some (onChatSendClick now label p)
  | CallHandleChatSend now t => Some (tciHandleChatSend now t p)
  | CallRenderMessages => Some (tciRenderMessages p)
  | TimerFires now => fire now p
  end.

Fixpoint run (es : list Event) (p : Page) : option Page :=
  match es with
  | [] => Some p
  | e :: es' =>
    match step e p with
    | Some p' => run es' p'
    | None => None
    end
  end.

(** A page the widget can be in: [ready] followed by some events. *)
Definition Reachable (p : Page) : Prop :=
  exists es, run es ready = Some p.

(** The clock of a run.  [timely last es p]: starting after a reading
    [last], the readings of [es] never go back and no callback runs
    before it is due. *)
Definition reading (e : Event) : option Z :=
  match e with
  | QuickInputClick now _ | ChatSendClick now _
  | CallHandleChatSend now _ | TimerFires now => Some now
  | CallRenderMessages => None
  end.

Definition onTime (e : Event) (p : Page) : bool :=
  match e, timers p with
  | TimerFires now, t :: _ => (due t <=? now)%Z
  | _, _ => true
  end.

Fixpoint timely (last : Z) (es : list Event) (p : Page) : bool :=
  match es with
  | [] => true
  | e :: es' =>
    let now := match reading e with Some n => n | None => last end in
    (last <=? now)%Z && onTime e p &&
    match step e p with
    | Some p' => timely now es' p'
    | None => false
    end
  end.

(** Two entries of the list with the same [id]. *)
Fixpoint hasId (i : Z) (ms : list ChatMessage) : bool :=
  match ms with
  | [] => false
  | m :: ms' => (id m =? i)%Z || hasId i ms'
  end.

Fixpoint uniqueIds (ms : list ChatMessage) : bool :=
  match ms with
  | [] => true
  | m :: ms' => negb (hasId (id m) ms') && uniqueIds ms'
  end.

(** ** The policy modal *)

Record PolicyData := mkPolicy {
  terms : jsstring;
  privacy : jsstring
}.

(** The value of [window.tciMoamoaPolicyData]: the page may not define
    it at all. *)
Inductive Global (A : Type) :=
| Undefined
| Null
| Object (a : A).
Arguments Undefined {A}.
Arguments Null {A}.
Arguments Object {A} a.

Inductive Outcome (A : Type) :=
| Done (a : A)
| TypeError.
Arguments Done {A} a.
Arguments TypeError {A}.

(** What the modal handlers write: the text of [#tci-modal-title] and
    of [#tci-modal-content], the class [hidden] of [#tci-policy-modal],
    [document.body.style.overflow], and how often [lucide.createIcons]
    was called. *)
Record Modal := mkModal {
  modalTitle : jsstring;
  modalContent : jsstring;
  modalHidden : bool;
  bodyOverflow : jsstring;
  iconsCreated : nat
}.

Module tciInitPolicyModal.

(** Lines 236-255.  [typeof null] is ['object'], so a [null] global
    passes the test and the property read throws. *)
Definition tciOpenModal (tciMoamoaPolicyData : Global PolicyData)
    (lucide : bool) (tciType : jsstring) (m : Modal) : Outcome Modal :=
  let tciTitle :=
    if str_eqb tciType (lit "terms") then lit "이용약관"
    else lit "개인정보처리방침" in
  let tciContent : Outcome jsstring :=
    match tciMoamoaPolicyData with
    | Undefined => Done []
    | Null => TypeError
    | Object d =>
      Done (if str_eqb tciType (lit "terms") then terms d else privacy d)
    end in
  match tciContent with
  | TypeError => TypeError
  | Done tciContent =>
    Done (mkModal tciTitle tciContent false (lit "hidden")
                  (if lucide then S (iconsCreated m) else iconsCreated m))
  end.

(** Lines 258-261. *)
Definition tciCloseModal (m : Modal) : Modal :=
  mkModal (modalTitle m) (modalContent m) true (lit "unset") (iconsCreated m).

End tciInitPolicyModal.

(** ** What the claims are stated with *)

(** [p] occurs in [s]: some code units, then [p], then the rest. *)
Definition occursIn (p s : jsstring) : Prop :=
  exists before after, s = before ++ p ++ after.

(** The two keyword sets of the reply and the three fixed replies. *)
Definition mentionsSupplies (t : jsstring) : Prop :=
  occursIn (lit "공책") t \/ occursIn (lit "연필") t \/ occursIn (lit "문구점") t.

Definition mentionsSnack (t : jsstring) : Prop :=
  occursIn (lit "과자") t \/ occursIn (lit "떡볶이") t.

Definition suppliesReply : jsstring :=
  lit "오, 공부 열심히 하려나보다! 📚 [학용품]으로 3,000원 기록 완료! 참 잘했어!".

Definition snackReply : jsstring :=
  lit "맛있게 먹었니? 😋 [간식]으로 분류했어. 이번 달 간식비가 조금 많아지는데 주의해볼까?".

Definition genericReply : jsstring := lit "알겠어! 기록해둘게.".

(** The block of one message: fixed markup around the text. *)
Definition opening (s : Sender) : jsstring :=
  match s with
  | user =>
    markup "<div class='flex justify-end'>"
    ++ markup "<div class='max-w-[80%] p-3 rounded-2xl text-sm bg-blue-500 text-white rounded-tr-none'>"
  | bot =>
    markup "<div class='flex justify-start'>"
    ++ markup "<div class='w-8 h-8 bg-yellow-400 rounded-full flex items-center justify-center mr-2 text-white font-bold text-xs flex-shrink-0'>M</div>"
    ++ markup "<div class='max-w-[80%] p-3 rounded-2xl text-sm bg-gray-100 text-gray-800 rounded-tl-none'>"
  end.

Definition closing : jsstring := markup "</div></div>".

Definition block (m : ChatMessage) : jsstring :=
  opening (sender m) ++ text m ++ closing.

Definition typingBlock : jsstring :=
  markup "<div class='flex justify-start'>"
  ++ markup "<div class='w-8 h-8 bg-yellow-400 rounded-full flex items-center justify-center mr-2 text-white font-bold text-xs'>M</div>"
  ++ markup "<div class='bg-gray-100 p-3 rounded-2xl rounded-tl-none text-xs text-gray-500'>"
  ++ lit "입력 중..."
  ++ closing.

(** Is the event the timer running a callback? *)
Definition isTimer (e : Event) : bool :=
  match e with TimerFires _ => true | _ => false end.

(** The widget is idle or waits for exactly one callback. *)
Definition oneTurn (p : Page) : Prop :=
  if tciIsTyping (app p) then exists t, timers p = [t] else timers p = [].

(** Two sessions on a clock that never goes back, each callback run
    when it is due.  In [sameIdRun] the second click is handled one
    millisecond after the first reply was added, in [olderIdRun] in the
    same millisecond. *)
Definition quickLabel : jsstring := lit "떡볶이 먹었어".

Definition sameIdRun : list Event :=
  [ QuickInputClick 1700000000000 quickLabel;
    TimerFires 1700000001500;
    QuickInputClick 1700000001501 quickLabel ].

Definition olderIdRun : list Event :=
  [ QuickInputClick 1700000000000 quickLabel;
    TimerFires 1700000001500;
    QuickInputClick 1700000001500 quickLabel ].

(** ** The mobile menu *)

(** What the menu handlers write: the class [hidden] of
    [#tci-mobile-menu], the markup last given to [.html()] of
    [#tci-mobile-menu-toggle], and how often [lucide.createIcons] was
    called (that library then swaps the [<i>] for its icon; it is not
    part of the script). *)
Record MenuDom := mkMenu {
  menuHidden : bool;
  toggleHtml : jsstring;
  menuIcons : nat
}.

Inductive MenuEvent :=
| ToggleClick
| MenuLinkClick
| DocumentClick (insideDropdown : bool).

Module tciInitMobileMenu.

Definition createIcons (lucide : bool) (d : MenuDom) : MenuDom :=
  if lucide then mkMenu (menuHidden d) (toggleHtml d) (S (menuIcons d))
  else d.

(** Lines 51-66. *)
Definition onToggleClick (lucide : bool) (a : App) (d : MenuDom)
  : App * MenuDom :=
  let a := mkApp (negb (tciMobileMenuOpen a))
                 (tciChatMessages a) (tciIsTyping a) in
  let d :=
    if tciMobileMenuOpen a then
      mkMenu false (markup "<i data-lucide='x' class='w-6 h-6'></i>")
             (menuIcons d)
    else
      mkMenu true (markup "<i data-lucide='menu' class='w-6 h-6'></i>")
             (menuIcons d) in
  (a, createIcons lucide d).

(** Lines 69-77. *)
Definition onMenuLinkClick (lucide : bool) (a : App) (d : MenuDom)
  : App * MenuDom :=
  let d := mkMenu true (markup "<i data-lucide='menu' class='w-6 h-6'></i>")
                  (menuIcons d) in
  let a := mkApp false (tciChatMessages a) (tciIsTyping a) in
  (a, createIcons lucide d).

(** Lines 80-84: the body of the test is empty. *)
Definition onDocumentClick (insideDropdown : bool) (a : App) (d : MenuDom)
  : App * MenuDom :=
  if negb insideDropdown then (a, d) else (a, d).

End tciInitMobileMenu.

Definition menuStep (lucide : bool) (e : MenuEvent) (s : App * MenuDom)
  : App * MenuDom :=
  match e with
  | ToggleClick => tciInitMobileMenu.onToggleClick lucide (fst s) (snd s)
  | MenuLinkClick => tciInitMobileMenu.onMenuLinkClick lucide (fst s) (snd s)
  | DocumentClick i => tciInitMobileMenu.onDocumentClick i (fst s) (snd s)
  end.

Definition menuRun (lucide : bool) (es : list MenuEvent) (s : App * MenuDom)
  : App * MenuDom :=
  fold_left (fun s e => menuStep lucide e s) es s.

(** The page shows the menu exactly when the flag says it is open, and
    the button carries the matching icon. *)
Definition menuSynced (s : App * MenuDom) : Prop :=
  menuHidden (snd s) = negb (tciMobileMenuOpen (fst s)) /\
  toggleHtml (snd s) =
    (if tciMobileMenuOpen (fst s)
     then markup "<i data-lucide='x' class='w-6 h-6'></i>"
     else markup "<i data-lucide='menu' class='w-6 h-6'></i>").

(** ** The handlers of the policy modal *)

Inductive ModalEvent :=
| OpenTermsClick
| OpenPrivacyClick
| CloseClick.

(** Lines 264-278.  A handler that throws has written nothing: the
    property read of [tciOpenModal] comes before its first write. *)
Definition onModalEvent (tciMoamoaPolicyData : Global PolicyData)
    (lucide : bool) (e : ModalEvent) (m : Modal) : Modal :=
  match e with
  | OpenTermsClick =>
    match tciInitPolicyModal.tciOpenModal tciMoamoaPolicyData lucide
                                          (lit "terms") m with
    | Done m' => m'
    | TypeError => m
    end
  | OpenPrivacyClick =>
    match tciInitPolicyModal.tciOpenModal tciMoamoaPolicyData lucide
                                          (lit "privacy") m with
    | Done m' => m'
    | TypeError => m
    end
  | CloseClick => tciInitPolicyModal.tciCloseModal m
  end.

Definition modalRun (tciMoamoaPolicyData : Global PolicyData)
    (lucide : bool) (es : list ModalEvent) (m : Modal) : Modal :=
  fold_left (fun m e => onModalEvent tciMoamoaPolicyData lucide e m) es m.

(** The page behind the modal scrolls exactly when the modal is hidden. *)
Definition scrollLockSynced (m : Modal) : Prop :=
  bodyOverflow m = (if modalHidden m then lit "unset" else lit "hidden").

(** ** The shape of a conversation *)

(** One finished turn: when the text was sent, the text, and the id the
    reply got. *)
Record Turn := mkTurn {
  asked : Z;
  question : jsstring;
  answered : Z
}.

Definition turnMessages (tr : Turn) : list ChatMessage :=
  [mkMsg (asked tr) user (question tr);
   mkMsg (answered tr) bot (tciBotResponse (question tr))].

Definition seed : ChatMessage :=
  mkMsg 1 bot (lit "안녕! 오늘 학용품 산 거 있어?").

(** The list is the seed, then the finished turns, then, while a reply
    is awaited, the one unanswered text, whose callback is the only one
    waiting. *)
Definition conversation (turns : list Turn) (p : Page) : Prop :=
  if tciIsTyping (app p) then
    exists now t,
      tciChatMessages (app p) =
        (seed :: flat_map turnMessages turns) ++ [mkMsg now user t] /\
      timers p = [mkTimer (now + 1500) t]
  else
    tciChatMessages (app p) = seed :: flat_map turnMessages turns /\
    timers p = [].

Definition punctual (tr : Turn) : Prop := (asked tr + 1501 <= answered tr)%Z.

(** No double quote among the code units. *)
Definition noQuote (s : jsstring) : bool :=
  negb (existsb (fun c => (c =? 34)%N) s).

(** Events of the page itself, as opposed to calls through
    [window.tciMoamoaApp]. *)
Definition isUiEvent (e : Event) : bool :=
  match e with
  | QuickInputClick _ _ | ChatSendClick _ _ | TimerFires _ => true
  | CallHandleChatSend _ _ | CallRenderMessages => false
  end.

(** No message of the page has a double quote in its text. *)
Definition quoteFree (p : Page) : Prop :=
  Forall (fun m => noQuote (text m) = true) (tciChatMessages (app p)).

(** * Properties *)

Arguments tciHtml : simpl never.
Arguments tciInitChatDemo.tciHtml : simpl never.
Arguments tciBotResponse : simpl never.
Arguments trim : simpl never.


(** ** Strings *)

Example decode_notebook : decode "공책" = [44277; 52293]%N.
Proof. vm_compute. reflexivity. Qed.

Example decode_books : decode "📚" = [55357; 56538]%N.
Proof. vm_compute. reflexivity. Qed.

Example decode_typing :
  decode "입력 중..." = [51077; 47141; 32; 51473; 46; 46; 46]%N.
Proof. vm_compute. reflexivity. Qed.

Example requote_div :
  requote (decode "<a b='c'>") = [60; 97; 32; 98; 61; 34; 99; 34; 62]%N.
Proof. vm_compute. reflexivity. Qed.

Lemma startsWith_prefix (p s : jsstring) :
  startsWith s p = true <-> exists after, s = p ++ after.
Proof.
  revert s; induction p as [|x p IH]; intros s; simpl.
  - split; [intros _; now exists s | reflexivity].
  - destruct s as [|y s].
    + split; [discriminate | intros [after H]; discriminate].
    + rewrite andb_true_iff, N.eqb_eq, IH. split.
      * intros [-> [after ->]]. now exists after.
      * intros [after H]. injection H as -> ->. split; [reflexivity | now exists after].
Qed.

Lemma includes_occursIn (s p : jsstring) :
  includes s p = true <-> occursIn p s.
Proof.
  unfold occursIn. induction s as [|y s IH].
  - simpl. rewrite orb_false_r, startsWith_prefix. split.
    + intros [after H]. now exists [], after.
    + intros [before [after H]]. destruct before; simpl in H.
      * now exists after.
      * discriminate.
  - change (includes (y :: s) p) with (startsWith (y :: s) p || includes s p).
    rewrite orb_true_iff, startsWith_prefix, IH. split.
    + intros [[after H] | [before [after H]]].
      * now exists [], after.
      * exists (y :: before), after. now rewrite H.
    + intros [before [after H]]. destruct before as [|z before]; simpl in H.
      * left. now exists after.
      * right. injection H as _ H. now exists before, after.
Qed.

Lemma trimStart_blank (s : jsstring) :
  forallb isWhiteSpace s = true -> trimStart s = [].
Proof.
  induction s as [|c s IH]; simpl; [reflexivity|].
  rewrite andb_true_iff. intros [Hc Hs]. rewrite Hc. now apply IH.
Qed.

Lemma trim_blank (s : jsstring) :
  forallb isWhiteSpace s = true -> trim s = [].
Proof.
  intros H. unfold trim. now rewrite (trimStart_blank s H).
Qed.


(** ** Rendering *)

Lemma fold_append (f : jsstring -> ChatMessage -> jsstring)
      (Hf : forall acc m, f acc m = acc ++ block m)
      (ms : list ChatMessage) (acc : jsstring) :
  fold_left f ms acc = acc ++ List.concat (map block ms).
Proof.
  revert acc; induction ms as [|m ms IH]; intros acc; simpl.
  - now rewrite app_nil_r.
  - now rewrite IH, Hf, <- app_assoc.
Qed.

Lemma tciHtml_blocks (a : App) :
  tciHtml a =
  List.concat (map block (tciChatMessages a))
  ++ (if tciIsTyping a then typingBlock else []).
Proof.
  unfold tciHtml. cbv zeta. rewrite fold_append.
  - destruct (tciIsTyping a).
    + unfold typingBlock, closing. now rewrite <- !app_assoc.
    + now rewrite app_nil_r.
  - intros acc m. unfold block, opening, closing.
    destruct (sender m); now rewrite <- !app_assoc.
Qed.

Lemma concat_blocks_text (ms : list ChatMessage) (m : ChatMessage) :
  In m ms -> exists before after,
    List.concat (map block ms) = before ++ text m ++ after.
Proof.
  intros H. apply in_split in H. destruct H as [l1 [l2 ->]].
  rewrite map_app, concat_app. simpl. unfold block at 2.
  exists (List.concat (map block l1) ++ opening (sender m)),
         (closing ++ List.concat (map block l2)).
  now rewrite <- !app_assoc.
Qed.


(** ** The handlers *)

Lemma truthy_true (s : jsstring) : truthy s = true <-> s <> [].
Proof. destruct s; simpl; split; intros H; congruence. Qed.

(** One call [tciHandleChatSend(t)] on a page [p], the clock reading
    [now]. *)
Section Send.

Variables (now : Z) (t : jsstring) (p : Page).

Lemma send_blank : trim t = [] -> tciHandleChatSend now t p = p.
Proof.
  intros H. unfold tciHandleChatSend. now rewrite H.
Qed.

Lemma send_typing :
  tciIsTyping (app p) = true -> tciHandleChatSend now t p = p.
Proof.
  intros H. unfold tciHandleChatSend. now rewrite H, orb_true_r.
Qed.

Lemma send_accepted :
  trim t <> [] -> tciIsTyping (app p) = false ->
  let a := mkApp (tciMobileMenuOpen (app p))
                 (tciChatMessages (app p) ++ [mkMsg now user t]) true in
  tciHandleChatSend now t p =
  mkPage a (tciHtml a) true (timers p ++ [mkTimer (now + 1500) t]).
Proof.
  intros Ht Hi. unfold tciHandleChatSend.
  apply truthy_true in Ht. now rewrite Ht, Hi.
Qed.

(** The call leaves the messages it finds in place. *)
Lemma send_appends :
  exists added,
    tciChatMessages (app (tciHandleChatSend now t p)) =
    tciChatMessages (app p) ++ added.
Proof.
  unfold tciHandleChatSend.
  destruct (negb _ || _).
  - exists []. now rewrite app_nil_r.
  - now exists [mkMsg now user t].
Qed.

(** One turn at a time. *)
Lemma oneTurn_send : oneTurn p -> oneTurn (tciHandleChatSend now t p).
Proof.
  intros H. unfold tciHandleChatSend.
  destruct (negb _ || _) eqn:G; [exact H|].
  apply orb_false_elim in G. destruct G as [_ G].
  unfold oneTurn in *. rewrite G in H. simpl. rewrite H. now eexists.
Qed.

(** The reply is dated after the text whenever the callback runs no
    earlier than it is due. *)
Lemma reply_id_after_text (now' : Z) :
  (now + 1500 <= now')%Z ->
  (id (mkMsg now user t) <
   id (mkMsg (now' + 1) bot (tciBotResponse t)))%Z.
Proof. simpl. lia. Qed.

End Send.

Lemma quick_click_typing (now : Z) (l : jsstring) (p : Page) :
  tciIsTyping (app p) = true -> onQuickInputClick now l p = p.
Proof. intros H. unfold onQuickInputClick. now apply send_typing. Qed.

Lemma send_click_typing (now : Z) (l : jsstring) (p : Page) :
  tciIsTyping (app p) = true -> onChatSendClick now l p = p.
Proof.
  intros H. unfold onChatSendClick.
  destruct (truthy _); [now apply send_typing | reflexivity].
Qed.

Lemma step_appends (e : Event) (p p' : Page) :
  step e p = Some p' ->
  exists added,
    tciChatMessages (app p') = tciChatMessages (app p) ++ added.
Proof.
  destruct e as [now l | now l | now t | | now]; simpl; intros H.
  - injection H as <-. apply send_appends.
  - injection H as <-. unfold onChatSendClick.
    destruct (truthy _); [apply send_appends|].
    exists []. now rewrite app_nil_r.
  - injection H as <-. apply send_appends.
  - injection H as <-. exists []. now rewrite app_nil_r.
  - unfold fire in H. destruct (timers p) as [|t rest]; [discriminate|].
    injection H as <-. now eexists.
Qed.

Lemma run_appends (es : list Event) (p p' : Page) :
  run es p = Some p' ->
  exists added,
    tciChatMessages (app p') = tciChatMessages (app p) ++ added.
Proof.
  revert p; induction es as [|e es IH]; intros p; simpl.
  - intros H. injection H as <-. exists []. now rewrite app_nil_r.
  - destruct (step e p) as [q|] eqn:E; [|discriminate].
    intros H. destruct (step_appends _ _ _ E) as [a1 H1].
    destruct (IH _ H) as [a2 H2].
    exists (a1 ++ a2). now rewrite H2, H1, app_assoc.
Qed.

Lemma oneTurn_step (e : Event) (p p' : Page) :
  step e p = Some p' -> oneTurn p -> oneTurn p'.
Proof.
  destruct e as [now l | now l | now t | | now]; simpl; intros H I.
  - injection H as <-. now apply oneTurn_send.
  - injection H as <-. unfold onChatSendClick.
    destruct (truthy _); [now apply oneTurn_send | exact I].
  - injection H as <-. now apply oneTurn_send.
  - injection H as <-. exact I.
  - unfold fire in H. unfold oneTurn in I.
    destruct (timers p) as [|t rest] eqn:T; [discriminate|].
    injection H as <-. unfold oneTurn; simpl.
    destruct (tciIsTyping (app p)).
    + destruct I as [t' I]. now injection I as _ ->.
    + discriminate.
Qed.

Lemma oneTurn_ready : oneTurn ready.
Proof. reflexivity. Qed.

Lemma run_invariant (P : Page -> Prop)
      (Hstep : forall e p p', step e p = Some p' -> P p -> P p')
      (es : list Event) (p p' : Page) :
  run es p = Some p' -> P p -> P p'.
Proof.
  revert p; induction es as [|e es IH]; intros p; simpl.
  - intros H. now injection H as <-.
  - destruct (step e p) as [q|] eqn:E; [|discriminate].
    intros H I. eapply IH; eauto.
Qed.

Lemma oneTurn_reachable (p : Page) : Reachable p -> oneTurn p.
Proof.
  intros [es H]. eapply run_invariant; eauto using oneTurn_step, oneTurn_ready.
Qed.

Lemma idle_no_timer (p : Page) :
  Reachable p -> tciIsTyping (app p) = false -> timers p = [].
Proof.
  intros R H. apply oneTurn_reachable in R. unfold oneTurn in R.
  now rewrite H in R.
Qed.

(** While a reply is awaited, nothing but the timer changes the
    application object or the queue. *)
Lemma waiting_step (e : Event) (p p' : Page) :
  isTimer e = false -> tciIsTyping (app p) = true ->
  step e p = Some p' -> app p' = app p /\ timers p' = timers p.
Proof.
  destruct e as [now l | now l | now t | | now]; simpl; intros E T H;
    try discriminate E; injection H as <-.
  - now rewrite quick_click_typing.
  - now rewrite send_click_typing.
  - now rewrite send_typing.
  - now split.
Qed.

Lemma step_total (e : Event) (p : Page) :
  isTimer e = false -> exists p', step e p = Some p'.
Proof. destruct e; simpl; intros H; try discriminate; now eexists. Qed.

Lemma waiting_run (es : list Event) (p : Page) :
  forallb (fun e => negb (isTimer e)) es = true ->
  tciIsTyping (app p) = true ->
  exists p', run es p = Some p' /\ app p' = app p /\ timers p' = timers p.
Proof.
  revert p; induction es as [|e es IH]; intros p; simpl.
  - intros _ _. now exists p.
  - rewrite andb_true_iff, negb_true_iff. intros [He Hes] T.
    destruct (step_total e p He) as [q E]. rewrite E.
    destruct (waiting_step _ _ _ He T E) as [A Q].
    destruct (IH q Hes) as [p' [R [A' Q']]]; [now rewrite A|].
    exists p'. repeat split; congruence.
Qed.

Lemma run_app (es1 es2 : list Event) (p q : Page) :
  run es1 p = Some q -> run (es1 ++ es2) p = run es2 q.
Proof.
  revert p; induction es1 as [|e es IH]; intros p; simpl.
  - intros H. now injection H as <-.
  - destruct (step e p); [apply IH | discriminate].
Qed.


(** ** The reply *)

Lemma orb3_supplies (t : jsstring) :
  includes t (lit "공책") || includes t (lit "연필")
  || includes t (lit "문구점") = true <-> mentionsSupplies t.
Proof.
  unfold mentionsSupplies.
  now rewrite !orb_true_iff, !includes_occursIn, or_assoc.
Qed.

Lemma orb2_snack (t : jsstring) :
  includes t (lit "과자") || includes t (lit "떡볶이") = true
  <-> mentionsSnack t.
Proof.
  unfold mentionsSnack. now rewrite !orb_true_iff, !includes_occursIn.
Qed.

Lemma tciBotResponse_cases (t : jsstring) :
  (mentionsSupplies t -> tciBotResponse t = suppliesReply) /\
  (~ mentionsSupplies t -> mentionsSnack t ->
   tciBotResponse t = snackReply) /\
  (~ mentionsSupplies t -> ~ mentionsSnack t ->
   tciBotResponse t = genericReply).
Proof.
  unfold tciBotResponse, suppliesReply, snackReply, genericReply. cbv zeta.
  pose proof (orb3_supplies t) as A. pose proof (orb2_snack t) as B.
  destruct (_ || _ || _);
    destruct (includes t (lit "과자") || includes t (lit "떡볶이")).
  - split; [|split]; intros H; [reflexivity | |]; elim H; now apply A.
  - split; [|split]; intros H; [reflexivity | |]; elim H; now apply A.
  - split; [|split]; intros H.
    + apply A in H. discriminate H.
    + intros _. reflexivity.
    + intros H0. elim H0. now apply B.
  - split; [|split]; intros H.
    + apply A in H. discriminate H.
    + intros H0. apply B in H0. discriminate H0.
    + intros _. reflexivity.
Qed.

(** An accepted text, any clicks and calls while the reply is awaited,
    then the timer: the run goes through and adds the two messages. *)
Lemma turn_completes (p : Page) (now now' : Z) (t : jsstring)
      (es : list Event) :
  Reachable p -> trim t <> [] -> tciIsTyping (app p) = false ->
  forallb (fun e => negb (isTimer e)) es = true ->
  exists p2,
    run (es ++ [TimerFires now']) (tciHandleChatSend now t p) = Some p2 /\
    tciChatMessages (app p2) =
      tciChatMessages (app p)
      ++ [mkMsg now user t; mkMsg (now' + 1) bot (tciBotResponse t)] /\
    tciIsTyping (app p2) = false /\
    timers p2 = [].
Proof.
  intros R Ht Hi Hes.
  pose proof (idle_no_timer p R Hi) as Q.
  pose proof (send_accepted now t p Ht Hi) as S. cbv zeta in S.
  rewrite Q in S. simpl in S.
  destruct (waiting_run es (tciHandleChatSend now t p) Hes) as [p1 [R1 [A1 Q1]]].
  { now rewrite S. }
  rewrite (run_app _ [TimerFires now'] _ _ R1). simpl. unfold fire. rewrite Q1, S. simpl.
  eexists. split; [reflexivity|]. simpl. rewrite A1, S. simpl.
  rewrite <- app_assoc. split; [reflexivity|]. split; reflexivity.
Qed.


(** ** The chat demo *)

(** C1.  An accepted text (not blank, sent while no reply is awaited)
    followed by its timer adds the user message and exactly one bot
    message.  The text of the bot message is the school-supplies reply
    when the text contains one of the three supplies keywords, else the
    snack reply when it contains one of the two snack keywords, else the
    generic reply; containment is of code units, so it is case-sensitive. *)
Theorem reply_by_keyword (p : Page) (now now' : Z) (t : jsstring)
        (Hreach : Reachable p)
        (Htext : trim t <> [])
        (Hidle : tciIsTyping (app p) = false) :
  exists p2 reply,
    run [CallHandleChatSend now t; TimerFires now'] p = Some p2 /\
    tciChatMessages (app p2) =
      tciChatMessages (app p)
      ++ [mkMsg now user t; mkMsg (now' + 1) bot reply] /\
    (mentionsSupplies t -> reply = suppliesReply) /\
    (~ mentionsSupplies t -> mentionsSnack t -> reply = snackReply) /\
    (~ mentionsSupplies t -> ~ mentionsSnack t -> reply = genericReply).
Proof.
  destruct (turn_completes p now now' t [] Hreach Htext Hidle eq_refl)
    as [p2 [R [M _]]].
  exists p2, (tciBotResponse t). split; [exact R|]. split; [exact M|].
  apply tciBotResponse_cases.
Qed.

Lemma reply_by_keyword_witness :
  exists p2 reply,
    run [CallHandleChatSend 1700000000000 (lit "떡볶이 먹었어");
         TimerFires 1700000001500] ready = Some p2 /\
    tciChatMessages (app p2) =
      tciChatMessages (app ready)
      ++ [mkMsg 1700000000000 user (lit "떡볶이 먹었어");
          mkMsg (1700000001500 + 1) bot reply] /\
    (mentionsSupplies (lit "떡볶이 먹었어") -> reply = suppliesReply) /\
    (~ mentionsSupplies (lit "떡볶이 먹었어") ->
     mentionsSnack (lit "떡볶이 먹었어") -> reply = snackReply) /\
    (~ mentionsSupplies (lit "떡볶이 먹었어") ->
     ~ mentionsSnack (lit "떡볶이 먹었어") -> reply = genericReply).
Proof.
  apply (reply_by_keyword ready 1700000000000 1700000001500
                          (lit "떡볶이 먹었어")).
  - exists []. reflexivity.
  - vm_compute. discriminate.
  - reflexivity.
Defined.

(** C2.  When an accepted text contains a supplies keyword and a snack
    keyword, the bot message added by its timer is the school-supplies
    reply: the supplies test comes first. *)
Theorem supplies_before_snack (p : Page) (now now' : Z) (t : jsstring)
        (Hreach : Reachable p)
        (Htext : trim t <> [])
        (Hidle : tciIsTyping (app p) = false)
        (Hsupplies : mentionsSupplies t)
        (Hsnack : mentionsSnack t) :
  tciBotResponse t = suppliesReply /\
  exists p2,
    run [CallHandleChatSend now t; TimerFires now'] p = Some p2 /\
    tciChatMessages (app p2) =
      tciChatMessages (app p)
      ++ [mkMsg now user t; mkMsg (now' + 1) bot suppliesReply].
Proof.
  destruct (tciBotResponse_cases t) as [A _]. specialize (A Hsupplies).
  split; [exact A|].
  destruct (turn_completes p now now' t [] Hreach Htext Hidle eq_refl)
    as [p2 [R [M _]]].
  exists p2. split; [exact R|]. now rewrite <- A.
Qed.

Lemma supplies_before_snack_witness :
  tciBotResponse (lit "연필이랑 과자 샀어") = suppliesReply /\
  exists p2,
    run [CallHandleChatSend 1700000000000 (lit "연필이랑 과자 샀어");
         TimerFires 1700000001500] ready = Some p2 /\
    tciChatMessages (app p2) =
      tciChatMessages (app ready)
      ++ [mkMsg 1700000000000 user (lit "연필이랑 과자 샀어");
          mkMsg (1700000001500 + 1) bot suppliesReply].
Proof.
  apply (supplies_before_snack ready 1700000000000 1700000001500
                               (lit "연필이랑 과자 샀어")).
  - exists []. reflexivity.
  - vm_compute. discriminate.
  - reflexivity.
  - right; left. exists [], (lit "이랑 과자 샀어"). vm_compute. reflexivity.
  - left. exists (lit "연필이랑 "), (lit " 샀어"). vm_compute. reflexivity.
Defined.

(** C3.  A text that is empty after trimming changes nothing, whatever
    the page: same messages, same typing flag, same markup, no timer
    added; the call returns normally. *)
Theorem blank_text_ignored (p : Page) (now : Z) (t : jsstring)
        (Hblank : trim t = []) :
  tciHandleChatSend now t p = p /\
  tciChatMessages (app (tciHandleChatSend now t p)) =
    tciChatMessages (app p) /\
  tciIsTyping (app (tciHandleChatSend now t p)) = tciIsTyping (app p) /\
  timers (tciHandleChatSend now t p) = timers p.
Proof.
  rewrite (send_blank now t p Hblank). repeat split.
Qed.

Lemma blank_text_ignored_witness :
  (trim (lit "   ") = [] /\ trim (lit "") = []) /\
  tciHandleChatSend 1700000000000 (lit "   ") ready = ready /\
  tciHandleChatSend 1700000000000 (lit "") ready = ready.
Proof.
  split; [split; vm_compute; reflexivity|]. split.
  - apply (blank_text_ignored ready 1700000000000 (lit "   ")).
    vm_compute. reflexivity.
  - apply (blank_text_ignored ready 1700000000000 (lit "")).
    vm_compute. reflexivity.
Defined.

(** C4.  While a reply is awaited every call of [tciHandleChatSend] is
    ignored.  So of two calls in a row, the first accepted, only the
    first adds a user message; and on every page the widget can reach,
    at most one callback waits, exactly when the typing flag is set. *)
Theorem typing_gate (p : Page) (now1 now2 : Z) (x y : jsstring) :
  (tciIsTyping (app p) = true -> tciHandleChatSend now1 x p = p) /\
  (tciIsTyping (app p) = false -> trim x <> [] ->
   tciHandleChatSend now2 y (tciHandleChatSend now1 x p) =
     tciHandleChatSend now1 x p /\
   tciChatMessages (app (tciHandleChatSend now2 y (tciHandleChatSend now1 x p))) =
     tciChatMessages (app p) ++ [mkMsg now1 user x]) /\
  (Reachable p -> oneTurn p /\ List.length (timers p) <= 1).
Proof.
  split; [|split].
  - apply send_typing.
  - intros Hi Hx.
    pose proof (send_accepted now1 x p Hx Hi) as S. cbv zeta in S.
    assert (T : tciIsTyping (app (tciHandleChatSend now1 x p)) = true)
      by now rewrite S.
    rewrite (send_typing now2 y _ T). split; [reflexivity|]. now rewrite S.
  - intros R. pose proof (oneTurn_reachable p R) as I. split; [exact I|].
    unfold oneTurn in I. destruct (tciIsTyping (app p)).
    + destruct I as [t ->]. simpl. lia.
    + rewrite I. simpl. lia.
Qed.

Lemma typing_gate_witness :
  tciChatMessages
    (app (tciHandleChatSend 1700000000001 (lit "x")
            (tciHandleChatSend 1700000000000 (lit "x") ready))) =
  tciChatMessages (app ready) ++ [mkMsg 1700000000000 user (lit "x")] /\
  List.length (timers (tciHandleChatSend 1700000000000 (lit "x") ready)) <= 1.
Proof.
  split.
  - apply (typing_gate ready 1700000000000 1700000000001 (lit "x") (lit "x")).
    + reflexivity.
    + vm_compute. discriminate.
  - apply (typing_gate (tciHandleChatSend 1700000000000 (lit "x") ready)
                       0 0 [] []).
    exists [CallHandleChatSend 1700000000000 (lit "x")]. reflexivity.
Defined.

(** C5.  After an accepted text exactly one callback waits.  Whatever
    clicks and calls come before it runs, it does run; afterwards the
    typing flag is off, nothing is left to run, and the list is the
    list from before the call with two messages added: the user's
    text, then a bot message. *)
Theorem accepted_turn_completes (p : Page) (now now' now'' : Z)
        (t : jsstring) (es : list Event)
        (Hreach : Reachable p)
        (Htext : trim t <> [])
        (Hidle : tciIsTyping (app p) = false)
        (Hes : forallb (fun e => negb (isTimer e)) es = true) :
  timers (tciHandleChatSend now t p) = [mkTimer (now + 1500) t] /\
  exists p2,
    run (es ++ [TimerFires now']) (tciHandleChatSend now t p) = Some p2 /\
    tciIsTyping (app p2) = false /\
    tciChatMessages (app p2) =
      tciChatMessages (app p)
      ++ [mkMsg now user t; mkMsg (now' + 1) bot (tciBotResponse t)] /\
    List.length (tciChatMessages (app p2)) =
      List.length (tciChatMessages (app p)) + 2 /\
    step (TimerFires now'') p2 = None.
Proof.
  split.
  - pose proof (send_accepted now t p Htext Hidle) as S. cbv zeta in S.
    rewrite S. simpl. now rewrite (idle_no_timer p Hreach Hidle).
  - destruct (turn_completes p now now' t es Hreach Htext Hidle Hes)
      as [p2 [R [M [T Q]]]].
    exists p2. split; [exact R|]. split; [exact T|]. split; [exact M|]. split.
    + rewrite M, length_app. reflexivity.
    + simpl. unfold fire. now rewrite Q.
Qed.

Lemma accepted_turn_completes_witness :
  timers (tciHandleChatSend 1700000000000 (lit "x") ready) =
    [mkTimer (1700000000000 + 1500) (lit "x")] /\
  exists p2,
    run ([QuickInputClick 1700000000700 (lit "x"); CallRenderMessages]
         ++ [TimerFires 1700000001500])
        (tciHandleChatSend 1700000000000 (lit "x") ready) = Some p2 /\
    tciIsTyping (app p2) = false /\
    tciChatMessages (app p2) =
      tciChatMessages (app ready)
      ++ [mkMsg 1700000000000 user (lit "x");
          mkMsg (1700000001500 + 1) bot (tciBotResponse (lit "x"))] /\
    List.length (tciChatMessages (app p2)) =
      List.length (tciChatMessages (app ready)) + 2 /\
    step (TimerFires 1700000003000) p2 = None.
Proof.
  apply (accepted_turn_completes ready 1700000000000 1700000001500
           1700000003000 (lit "x")
           [QuickInputClick 1700000000700 (lit "x"); CallRenderMessages]).
  - exists []. reflexivity.
  - vm_compute. discriminate.
  - reflexivity.
  - reflexivity.
Defined.

(** C6.  The ids are [Date.now()] for a user message and
    [Date.now() + 1] for a bot message.  On a clock that never goes
    back, with the callback run when due: a click handled one
    millisecond after a reply gives the new user message the id of that
    reply, and a click handled in the millisecond of the reply gives it
    a smaller id than the reply's. *)
Theorem ids_collide :
  (timely 0 sameIdRun ready = true /\
   exists p,
     run sameIdRun ready = Some p /\
     map id (tciChatMessages (app p)) =
       [1; 1700000000000; 1700000001501; 1700000001501]%Z /\
     map sender (tciChatMessages (app p)) = [bot; user; bot; user] /\
     uniqueIds (tciChatMessages (app p)) = false) /\
  (timely 0 olderIdRun ready = true /\
   exists p,
     run olderIdRun ready = Some p /\
     map id (tciChatMessages (app p)) =
       [1; 1700000000000; 1700000001501; 1700000001500]%Z).
Proof.
  split; (split; [vm_compute; reflexivity|]).
  - eexists. split; [vm_compute; reflexivity|].
    split; [|split]; vm_compute; reflexivity.
  - eexists. split; vm_compute; reflexivity.
Qed.

(** C7.  Along any run of the widget the list of messages only grows at
    its end: the list after the run is the list before it followed by
    what was added.  Rendering leaves the application object as it is
    and writes one block per message, in the order of the list, then
    the typing block when the flag is set. *)
Theorem messages_append_only (es : list Event) (p p' : Page)
        (Hrun : run es p = Some p') :
  (exists added,
     tciChatMessages (app p') = tciChatMessages (app p) ++ added) /\
  app (tciRenderMessages p) = app p /\
  chatHtml (tciRenderMessages p) =
    List.concat (map block (tciChatMessages (app p)))
    ++ (if tciIsTyping (app p) then typingBlock else []) /\
  List.length (map block (tciChatMessages (app p))) =
    List.length (tciChatMessages (app p)).
Proof.
  split; [exact (run_appends es p p' Hrun)|].
  split; [reflexivity|]. split.
  - unfold tciRenderMessages, writeChat. simpl. apply tciHtml_blocks.
  - apply length_map.
Qed.

Lemma messages_append_only_witness :
  exists p',
    run [QuickInputClick 1700000000000 quickLabel;
         CallRenderMessages;
         TimerFires 1700000001500] ready = Some p' /\
    exists added,
      tciChatMessages (app p') = tciChatMessages (app ready) ++ added.
Proof.
  eexists. split.
  - vm_compute. reflexivity.
  - eapply (messages_append_only
              [QuickInputClick 1700000000000 quickLabel;
               CallRenderMessages;
               TimerFires 1700000001500] ready).
    vm_compute. reflexivity.
Defined.

(** ** The policy modal *)

(** C8.  With [window.tciMoamoaPolicyData] undefined, opening the modal
    returns normally: the title is the one of the requested kind, the
    content is the empty string, the modal is shown and the page behind
    it no longer scrolls. *)
Theorem open_modal_without_data (lucide : bool) (tciType : jsstring)
        (m : Modal) :
  exists m',
    tciInitPolicyModal.tciOpenModal Undefined lucide tciType m = Done m' /\
    modalContent m' = [] /\
    modalTitle m' =
      (if str_eqb tciType (lit "terms") then lit "이용약관"
       else lit "개인정보처리방침") /\
    modalHidden m' = false /\
    bodyOverflow m' = lit "hidden".
Proof.
  eexists. split; [reflexivity|]. simpl. repeat split.
Qed.

(** ** The two renderers *)

(** C9.  The closure of [tciInitChatDemo] and
    [tciMoamoaApp.tciRenderMessages] build the same markup from the
    same messages and typing flag, and leave the page in the same
    state. *)
Theorem renderers_agree :
  (forall a : App, tciInitChatDemo.tciHtml a = tciHtml a) /\
  (forall p : Page,
     tciInitChatDemo.tciRenderMessages p = tciRenderMessages p).
Proof.
  assert (H : forall a, tciInitChatDemo.tciHtml a = tciHtml a).
  { intros a. unfold tciInitChatDemo.tciHtml, tciHtml. reflexivity. }
  split; [exact H|].
  intros p. unfold tciInitChatDemo.tciRenderMessages, tciRenderMessages.
  now rewrite H.
Qed.

(** C10.  The markup is the blocks of the messages one after the other,
    each the fixed opening of its sender, the text as it is, and the
    fixed closing, followed by the typing block when the flag is set.
    Nothing is escaped: the text of every message occurs in the markup,
    code unit for code unit. *)
Theorem render_verbatim (a : App) :
  tciHtml a =
    List.concat
      (map (fun m => opening (sender m) ++ text m ++ closing)
           (tciChatMessages a))
    ++ (if tciIsTyping a then typingBlock else []) /\
  forall m, In m (tciChatMessages a) -> occursIn (text m) (tciHtml a).
Proof.
  split; [exact (tciHtml_blocks a)|].
  intros m H. rewrite tciHtml_blocks.
  destruct (concat_blocks_text _ _ H) as [before [after E]].
  exists before, (after ++ (if tciIsTyping a then typingBlock else [])).
  now rewrite E, <- !app_assoc.
Qed.

Lemma render_verbatim_witness :
  occursIn (lit "<script>alert(1)</script>")
           (tciHtml (mkApp false
                       [mkMsg 1 bot (lit "hi");
                        mkMsg 2 user (lit "<script>alert(1)</script>")]
                       true)).
Proof.
  destruct (render_verbatim
              (mkApp false
                     [mkMsg 1 bot (lit "hi");
                      mkMsg 2 user (lit "<script>alert(1)</script>")]
                     true)) as [_ H].
  specialize (H (mkMsg 2 user (lit "<script>alert(1)</script>"))).
  cbn [text tciChatMessages In] in H.
  apply H. right. left. exact eq_refl.
Defined.

(** * Further properties of the script *)

(** ** The guard of [tciHandleChatSend] and the click handlers *)

Lemma trimStart_nil (s : jsstring) :
  trimStart s = [] -> forallb isWhiteSpace s = true.
Proof.
  induction s as [|c s IH]; simpl; [reflexivity|].
  destruct (isWhiteSpace c); [exact IH | discriminate].
Qed.

Lemma trimStart_all_blank (s : jsstring) :
  forallb isWhiteSpace (trimStart s) = true -> forallb isWhiteSpace s = true.
Proof.
  induction s as [|c s IH]; simpl; [reflexivity|].
  destruct (isWhiteSpace c) eqn:E; simpl.
  - exact IH.
  - rewrite E. discriminate.
Qed.

Lemma forallb_rev (f : codeunit -> bool) (s : jsstring) :
  forallb f (rev s) = true -> forallb f s = true.
Proof.
  rewrite !forallb_forall. intros H x Hx. apply H. now apply in_rev in Hx.
Qed.

Lemma trim_nil_blank (s : jsstring) :
  trim s = [] <-> forallb isWhiteSpace s = true.
Proof.
  split; [|apply trim_blank].
  unfold trim, trimEnd. intros H.
  apply (f_equal (@rev codeunit)) in H. rewrite rev_involutive in H.
  simpl in H. apply trimStart_nil, forallb_rev in H.
  now apply trimStart_all_blank.
Qed.

(** X1.  A call of [tciHandleChatSend] leaves the page as it is exactly
    when every code unit of the text is white space or a reply is
    awaited; in every other case the page changes. *)
Theorem send_ignored_iff (now : Z) (t : jsstring) (p : Page) :
  tciHandleChatSend now t p = p <->
  forallb isWhiteSpace t = true \/ tciIsTyping (app p) = true.
Proof.
  split.
  - intros H. destruct (tciIsTyping (app p)) eqn:Ty; [now right | left].
    apply trim_nil_blank. destruct (trim t) as [|c r] eqn:Tr; [reflexivity|].
    assert (Ht : trim t <> []) by (rewrite Tr; discriminate).
    pose proof (send_accepted now t p Ht Ty) as S. cbv zeta in S.
    rewrite S in H. apply (f_equal (fun q => tciIsTyping (app q))) in H.
    simpl in H. congruence.
  - intros [H | H].
    + apply send_blank. now apply trim_nil_blank.
    + now apply send_typing.
Qed.

(** X2.  The handler of the send button tests the trimmed text before
    it calls [tciHandleChatSend], which tests it again: for every label
    and page it does what the handler of the quick input does. *)
Theorem click_handlers_agree (now : Z) (label : jsstring) (p : Page) :
  onChatSendClick now label p = onQuickInputClick now label p.
Proof.
  unfold onChatSendClick, onQuickInputClick. cbv zeta.
  destruct (trim (stripQuotes label)) as [|c r] eqn:E; simpl.
  - symmetry. now apply send_blank.
  - reflexivity.
Qed.

Lemma noQuote_stripQuotes (s : jsstring) : noQuote (stripQuotes s) = true.
Proof.
  unfold noQuote, stripQuotes. apply negb_true_iff.
  induction s as [|c s IH]; simpl; [reflexivity|].
  destruct (c =? 34)%N eqn:E; simpl; [exact IH|]. now rewrite E.
Qed.

Lemma noQuote_response (t : jsstring) : noQuote (tciBotResponse t) = true.
Proof.
  unfold tciBotResponse. cbv zeta.
  destruct (_ || _ || _); [vm_compute; reflexivity|].
  destruct (_ || _); vm_compute; reflexivity.
Qed.

Lemma quoteFree_send (now : Z) (t : jsstring) (p : Page) :
  noQuote t = true -> quoteFree p -> quoteFree (tciHandleChatSend now t p).
Proof.
  intros Ht H. unfold tciHandleChatSend.
  destruct (negb _ || _); [exact H|].
  unfold quoteFree in *. simpl. apply Forall_app. split; [exact H|].
  constructor; [exact Ht | constructor].
Qed.

Lemma quoteFree_step (e : Event) (p p' : Page) :
  isUiEvent e = true -> step e p = Some p' -> quoteFree p -> quoteFree p'.
Proof.
  destruct e as [now l | now l | now t | | now]; simpl; intros U H Q;
    try discriminate U.
  - injection H as <-. apply quoteFree_send; [apply noQuote_stripQuotes | exact Q].
  - injection H as <-. unfold onChatSendClick.
    destruct (truthy _); [|exact Q].
    apply quoteFree_send; [apply noQuote_stripQuotes | exact Q].
  - unfold fire in H. destruct (timers p) as [|t rest]; [discriminate|].
    injection H as <-. unfold quoteFree in *. simpl.
    apply Forall_app. split; [exact Q|].
    constructor; [apply noQuote_response | constructor].
Qed.

(** X3.  In a session driven by the page alone (clicks on the two
    buttons and the timer), no message ever holds a double quote: the
    handlers strip them from the label and the replies have none. *)
Theorem clicks_store_no_quote (es : list Event) (p : Page)
        (Hui : forallb isUiEvent es = true)
        (Hrun : run es ready = Some p) :
  quoteFree p.
Proof.
  assert (G : forall es q, forallb isUiEvent es = true ->
                           run es q = Some p -> quoteFree q -> quoteFree p).
  { clear. intros es. induction es as [|e es IH]; intros q U R Q; simpl in *.
    - now injection R as <-.
    - apply andb_true_iff in U. destruct U as [Ue Ues].
      destruct (step e q) as [q'|] eqn:E; [|discriminate].
      apply (IH q' Ues R). exact (quoteFree_step e q q' Ue E Q). }
  apply (G es ready Hui Hrun).
  unfold quoteFree. vm_compute. constructor; [reflexivity | constructor].
Qed.

Lemma clicks_store_no_quote_witness :
  exists p,
    run [QuickInputClick 1700000000000 (markup "'떡볶이 먹었어'");
         TimerFires 1700000001500;
         ChatSendClick 1700000002000 (markup "'공책 샀어'")] ready = Some p /\
    map text (tciChatMessages (app p)) =
      [text seed; lit "떡볶이 먹었어"; snackReply; lit "공책 샀어"] /\
    quoteFree p.
Proof.
  eexists. split; [vm_compute; reflexivity|]. split; [vm_compute; reflexivity|].
  apply (clicks_store_no_quote
           [QuickInputClick 1700000000000 (markup "'떡볶이 먹었어'");
            TimerFires 1700000001500;
            ChatSendClick 1700000002000 (markup "'공책 샀어'")]).
  - reflexivity.
  - vm_compute. reflexivity.
Defined.

(** ** Invariants of the chat demo *)

Lemma conversation_send (now : Z) (t : jsstring) (p : Page)
      (turns : list Turn) :
  conversation turns p -> conversation turns (tciHandleChatSend now t p).
Proof.
  intros C. unfold tciHandleChatSend.
  destruct (negb _ || _) eqn:G; [exact C|].
  apply orb_false_elim in G. destruct G as [_ G].
  unfold conversation in *. rewrite G in C. destruct C as [M Q]. simpl.
  exists now, t. now rewrite M, Q.
Qed.

Lemma conversation_fire (now' : Z) (p p' : Page) (turns : list Turn) :
  conversation turns p -> fire now' p = Some p' ->
  exists now t,
    timers p = [mkTimer (now + 1500) t] /\
    conversation (turns ++ [mkTurn now t (now' + 1)]) p'.
Proof.
  unfold conversation, fire. intros C F.
  destruct (tciIsTyping (app p)).
  - destruct C as [now [t [M Q]]]. rewrite Q in F. injection F as <-.
    exists now, t. split; [exact Q|]. simpl. split; [|reflexivity].
    rewrite M, flat_map_app. simpl. now rewrite <- app_assoc.
  - destruct C as [_ Q]. rewrite Q in F. discriminate.
Qed.

Lemma conversation_step (e : Event) (p p' : Page) (turns : list Turn) :
  conversation turns p -> step e p = Some p' ->
  conversation turns p' \/
  exists now t now',
    e = TimerFires now' /\ timers p = [mkTimer (now + 1500) t] /\
    conversation (turns ++ [mkTurn now t (now' + 1)]) p'.
Proof.
  intros C. destruct e as [now l | now l | now t | | now']; simpl; intros H.
  - injection H as <-. left. now apply conversation_send.
  - injection H as <-. left. unfold onChatSendClick.
    destruct (truthy _); [now apply conversation_send | exact C].
  - injection H as <-. left. now apply conversation_send.
  - injection H as <-. left. exact C.
  - right. destruct (conversation_fire now' p p' turns C H) as [now [t [Q C']]].
    now exists now, t, now'.
Qed.

Lemma conversation_ready : conversation [] ready.
Proof. unfold conversation. simpl. split; reflexivity. Qed.

Lemma conversation_length (turns : list Turn) (p : Page) :
  conversation turns p ->
  List.length (tciChatMessages (app p)) =
  1 + 2 * List.length turns + (if tciIsTyping (app p) then 1 else 0).
Proof.
  assert (L : forall ts, List.length (flat_map turnMessages ts)
                         = 2 * List.length ts).
  { induction ts as [|tr ts IH]; simpl; [reflexivity|]. rewrite IH. lia. }
  unfold conversation. destruct (tciIsTyping (app p)).
  - intros [now [t [M _]]]. rewrite M, length_app. simpl. rewrite L. lia.
  - intros [M _]. rewrite M. simpl. rewrite L. lia.
Qed.

(** X4.  On every page the widget can reach, the list is the seed
    greeting followed by finished turns (a user text, then the reply
    computed from that very text) and, while a reply is awaited, one
    last user text whose callback is the only one waiting.  So the list
    has odd length exactly when the widget is idle. *)
Theorem conversation_shape (p : Page) (Hreach : Reachable p) :
  exists turns,
    conversation turns p /\
    List.length (tciChatMessages (app p)) =
      1 + 2 * List.length turns + (if tciIsTyping (app p) then 1 else 0).
Proof.
  destruct Hreach as [es R].
  assert (G : forall es q turns, conversation turns q -> run es q = Some p ->
                                 exists turns', conversation turns' p).
  { clear. intros es. induction es as [|e es IH]; intros q turns C R; simpl in R.
    - injection R as <-. now exists turns.
    - destruct (step e q) as [q'|] eqn:E; [|discriminate].
      destruct (conversation_step e q q' turns C E)
        as [C' | [now [t [now' [_ [_ C']]]]]]; eapply IH; eauto. }
  destruct (G es ready [] conversation_ready R) as [turns C].
  exists turns. split; [exact C | now apply conversation_length].
Qed.

Lemma conversation_shape_witness :
  exists turns,
    conversation turns (tciHandleChatSend 1700000000000 quickLabel ready) /\
    List.length
      (tciChatMessages
         (app (tciHandleChatSend 1700000000000 quickLabel ready))) =
      1 + 2 * List.length turns
      + (if tciIsTyping
              (app (tciHandleChatSend 1700000000000 quickLabel ready))
         then 1 else 0).
Proof.
  apply (conversation_shape
           (tciHandleChatSend 1700000000000 quickLabel ready)).
  exists [CallHandleChatSend 1700000000000 quickLabel]. reflexivity.
Defined.

Lemma timely_turns (es : list Event) :
  forall (last : Z) (q p : Page) (turns : list Turn),
    conversation turns q -> Forall punctual turns ->
    timely last es q = true -> run es q = Some p ->
    exists turns', conversation turns' p /\ Forall punctual turns'.
Proof.
  induction es as [|e es IH]; intros last q p turns C P T R; simpl in T, R.
  - injection R as <-. now exists turns.
  - destruct (step e q) as [q'|] eqn:E; [|discriminate].
    apply andb_true_iff in T. destruct T as [T T'].
    apply andb_true_iff in T. destruct T as [_ O].
    destruct (conversation_step e q q' turns C E)
      as [C' | [now [t [now' [-> [Q C']]]]]].
    + eapply IH; eauto.
    + eapply IH; [exact C' | | exact T' | exact R].
      apply Forall_app. split; [exact P|]. constructor; [|constructor].
      unfold onTime in O. rewrite Q in O. simpl in O.
      unfold punctual. simpl. lia.
Qed.

(** X5.  When no callback runs before it is due, every reply carries an
    id at least 1501 above the id of the text it answers. *)
Theorem replies_dated_after_texts (last : Z) (es : list Event) (p : Page)
        (Htimely : timely last es ready = true)
        (Hrun : run es ready = Some p) :
  exists turns, conversation turns p /\ Forall punctual turns.
Proof.
  apply (timely_turns es last ready p [] conversation_ready
                      (Forall_nil _) Htimely Hrun).
Qed.

Lemma replies_dated_after_texts_witness :
  exists p,
    run sameIdRun ready = Some p /\
    exists turns, conversation turns p /\ Forall punctual turns.
Proof.
  eexists. split; [vm_compute; reflexivity|].
  apply (replies_dated_after_texts 0 sameIdRun);
    vm_compute; reflexivity.
Defined.

Lemma shown_send (now : Z) (t : jsstring) (p : Page) :
  chatHtml p = tciHtml (app p) /\ chatAtBottom p = true ->
  chatHtml (tciHandleChatSend now t p) =
    tciHtml (app (tciHandleChatSend now t p)) /\
  chatAtBottom (tciHandleChatSend now t p) = true.
Proof.
  intros H. unfold tciHandleChatSend.
  destruct (negb _ || _); [exact H|]. simpl. now split.
Qed.

(** X6.  On every page the widget can reach, the markup in
    [#tci-chat-messages] is the one [tciRenderMessages] builds from the
    current messages and typing flag, and the element is scrolled to
    its end: no handler changes the state without rendering it. *)
Theorem chat_markup_current (p : Page) (Hreach : Reachable p) :
  chatHtml p = tciHtml (app p) /\ chatAtBottom p = true.
Proof.
  destruct Hreach as [es R].
  apply (run_invariant
           (fun q => chatHtml q = tciHtml (app q) /\ chatAtBottom q = true))
    with (es := es) (p := ready); [|exact R|].
  - clear. intros e q q' E H.
    destruct e as [now l | now l | now t | | now]; simpl in E.
    + injection E as <-. now apply shown_send.
    + injection E as <-. unfold onChatSendClick.
      destruct (truthy _); [now apply shown_send | exact H].
    + injection E as <-. now apply shown_send.
    + injection E as <-. simpl. now split.
    + unfold fire in E. destruct (timers q); [discriminate|].
      injection E as <-. simpl. now split.
  - split; vm_compute; reflexivity.
Qed.

Lemma chat_markup_current_witness :
  chatHtml (tciHandleChatSend 1700000000000 quickLabel ready) =
    tciHtml (app (tciHandleChatSend 1700000000000 quickLabel ready)) /\
  chatAtBottom (tciHandleChatSend 1700000000000 quickLabel ready) = true.
Proof.
  apply (chat_markup_current
           (tciHandleChatSend 1700000000000 quickLabel ready)).
  exists [CallHandleChatSend 1700000000000 quickLabel]. reflexivity.
Defined.

(** X7.  The callback of the timer can run exactly while the typing
    flag is set: on a reachable page the event loop has a callback of
    the widget to run if and only if a reply is awaited. *)
Theorem timer_waits_iff_typing (p : Page) (now : Z) (Hreach : Reachable p) :
  step (TimerFires now) p = None <-> tciIsTyping (app p) = false.
Proof.
  pose proof (oneTurn_reachable p Hreach) as I. unfold oneTurn in I.
  simpl. unfold fire. destruct (tciIsTyping (app p)).
  - destruct I as [t ->]. split; discriminate.
  - rewrite I. split; reflexivity.
Qed.

Lemma timer_waits_iff_typing_witness :
  step (TimerFires 1700000001500) ready = None /\
  step (TimerFires 1700000001500)
       (tciHandleChatSend 1700000000000 quickLabel ready) <> None.
Proof.
  split.
  - apply (timer_waits_iff_typing ready 1700000001500).
    + exists []. reflexivity.
    + reflexivity.
  - intros H.
    apply (timer_waits_iff_typing
             (tciHandleChatSend 1700000000000 quickLabel ready)
             1700000001500) in H.
    + vm_compute in H. discriminate H.
    + exists [CallHandleChatSend 1700000000000 quickLabel]. reflexivity.
Defined.

(** X8.  As long as the widget was idle, the markup of every later
    page starts with the markup of the earlier one: what the visitor
    has seen of the conversation is never rewritten, only continued. *)
Theorem markup_only_grows (es : list Event) (p p' : Page)
        (Hidle : tciIsTyping (app p) = false)
        (Hrun : run es p = Some p') :
  exists rest, tciHtml (app p') = tciHtml (app p) ++ rest.
Proof.
  destruct (run_appends es p p' Hrun) as [added M].
  rewrite !tciHtml_blocks, M, Hidle, map_app, concat_app, app_nil_r.
  eexists. now rewrite <- app_assoc.
Qed.

Lemma markup_only_grows_witness :
  exists rest,
    tciHtml (app (tciHandleChatSend 1700000000000 quickLabel ready)) =
    tciHtml (app ready) ++ rest.
Proof.
  apply (markup_only_grows [CallHandleChatSend 1700000000000 quickLabel]
                           ready).
  - reflexivity.
  - reflexivity.
Defined.

(** ** The reply *)

Lemma occursIn_trans (k t t' : jsstring) :
  occursIn k t -> occursIn t t' -> occursIn k t'.
Proof.
  intros [a [b ->]] [c [d ->]]. exists (c ++ a), (b ++ d).
  now rewrite <- !app_assoc.
Qed.

Lemma mentionsSupplies_embedded (t t' : jsstring) :
  occursIn t t' -> mentionsSupplies t -> mentionsSupplies t'.
Proof.
  unfold mentionsSupplies. intros H [A | [A | A]];
    [left | right; left | right; right]; eapply occursIn_trans; eauto.
Qed.

Lemma mentionsSnack_embedded (t t' : jsstring) :
  occursIn t t' -> mentionsSnack t -> mentionsSnack t'.
Proof.
  unfold mentionsSnack. intros H [A | A];
    [left | right]; eapply occursIn_trans; eauto.
Qed.

(** X9.  The three replies are pairwise different, so the reply tells
    the class of the text: it is the supplies reply exactly when a
    supplies keyword occurs, the snack reply exactly when a snack
    keyword and no supplies keyword occurs, the generic reply exactly
    when no keyword occurs. *)
Theorem reply_tells_class (t : jsstring) :
  (tciBotResponse t = suppliesReply <-> mentionsSupplies t) /\
  (tciBotResponse t = snackReply <->
   ~ mentionsSupplies t /\ mentionsSnack t) /\
  (tciBotResponse t = genericReply <->
   ~ mentionsSupplies t /\ ~ mentionsSnack t).
Proof.
  assert (D1 : suppliesReply <> snackReply)
    by (intros E; vm_compute in E; discriminate E).
  assert (D2 : suppliesReply <> genericReply)
    by (intros E; vm_compute in E; discriminate E).
  assert (D3 : snackReply <> genericReply)
    by (intros E; vm_compute in E; discriminate E).
  destruct (tciBotResponse_cases t) as [A [B C]].
  assert (HA : mentionsSupplies t \/ ~ mentionsSupplies t).
  { pose proof (orb3_supplies t) as S.
    match type of S with
    | ?x = true <-> _ => destruct (Bool.bool_dec x true) as [E | E]
    end; [left | right]; tauto. }
  assert (HB : mentionsSnack t \/ ~ mentionsSnack t).
  { pose proof (orb2_snack t) as S.
    match type of S with
    | ?x = true <-> _ => destruct (Bool.bool_dec x true) as [E | E]
    end; [left | right]; tauto. }
  destruct HA as [HA | HA]; [|destruct HB as [HB | HB]].
  - rewrite (A HA). split; [|split]; split; try tauto; intros E;
      exfalso; congruence.
  - rewrite (B HA HB). split; [|split]; split; try tauto; intros E;
      exfalso; congruence.
  - rewrite (C HA HB). split; [|split]; split; try tauto; intros E;
      exfalso; congruence.
Qed.

(** X10.  Text around a message does not hide its keywords: a text
    that contains a text with a supplies keyword gets the supplies
    reply, and a text that contains a text with a snack keyword gets
    the snack reply unless it also has a supplies keyword. *)
Theorem reply_of_longer_text (t t' : jsstring) (Hin : occursIn t t') :
  (mentionsSupplies t -> tciBotResponse t' = suppliesReply) /\
  (mentionsSnack t -> ~ mentionsSupplies t' ->
   tciBotResponse t' = snackReply).
Proof.
  destruct (tciBotResponse_cases t') as [A [B _]]. split.
  - intros H. apply A. now apply (mentionsSupplies_embedded t t').
  - intros H N. apply B; [exact N|]. now apply (mentionsSnack_embedded t t').
Qed.

Lemma reply_of_longer_text_witness :
  tciBotResponse (lit "어제 연필 샀어!") = suppliesReply.
Proof.
  apply (reply_of_longer_text (lit "연필") (lit "어제 연필 샀어!")).
  - exists (lit "어제 "), (lit " 샀어!"). vm_compute. reflexivity.
  - right; left. exists [], []. vm_compute. reflexivity.
Defined.

(** ** The mobile menu *)

Lemma createIcons_keeps (lucide : bool) (d : MenuDom) :
  menuHidden (tciInitMobileMenu.createIcons lucide d) = menuHidden d /\
  toggleHtml (tciInitMobileMenu.createIcons lucide d) = toggleHtml d.
Proof. destruct lucide; now split. Qed.

Lemma menuSynced_step (lucide : bool) (e : MenuEvent) (s : App * MenuDom) :
  menuSynced s \/ (forall i, e <> DocumentClick i) ->
  menuSynced (menuStep lucide e s).
Proof.
  intros H. destruct e as [| | i]; simpl.
  - unfold tciInitMobileMenu.onToggleClick, menuSynced. cbn [fst snd].
    destruct (createIcons_keeps lucide
                (if tciMobileMenuOpen
                      (mkApp (negb (tciMobileMenuOpen (fst s)))
                             (tciChatMessages (fst s)) (tciIsTyping (fst s)))
                 then mkMenu false
                        (markup "<i data-lucide='x' class='w-6 h-6'></i>")
                        (menuIcons (snd s))
                 else mkMenu true
                        (markup "<i data-lucide='menu' class='w-6 h-6'></i>")
                        (menuIcons (snd s)))) as [-> ->].
    cbn [tciMobileMenuOpen].
    destruct (negb (tciMobileMenuOpen (fst s))); now split.
  - unfold tciInitMobileMenu.onMenuLinkClick, menuSynced. cbn [fst snd].
    destruct (createIcons_keeps lucide
                (mkMenu true
                   (markup "<i data-lucide='menu' class='w-6 h-6'></i>")
                   (menuIcons (snd s)))) as [-> ->].
    now split.
  - destruct H as [H | H]; [|now elim (H i)].
    unfold tciInitMobileMenu.onDocumentClick. destruct s as [a d].
    now destruct (negb i).
Qed.

(** X11.  Once the toggle button or a menu link has been clicked, and
    from then on, the menu is hidden exactly when
    [tciMobileMenuOpen] is false and the button holds the icon of that
    state; a page that starts in step stays in step. *)
Theorem menu_follows_flag (lucide : bool) (es : list MenuEvent)
        (s : App * MenuDom)
        (H : menuSynced s \/
             existsb (fun e => match e with
                               | DocumentClick _ => false
                               | _ => true
                               end) es = true) :
  menuSynced (menuRun lucide es s).
Proof.
  unfold menuRun. revert s H.
  induction es as [|e es IH]; intros s H; simpl in *.
  - destruct H as [H | H]; [exact H | discriminate].
  - apply IH. destruct e as [| | i]; simpl in H.
    + left. apply menuSynced_step. right. intros i; discriminate.
    + left. apply menuSynced_step. right. intros i; discriminate.
    + destruct H as [H | H]; [left | right; exact H].
      apply menuSynced_step. now left.
Qed.

Lemma menu_follows_flag_witness :
  menuSynced
    (menuRun true [DocumentClick false; ToggleClick; DocumentClick true]
             (tciMoamoaApp, mkMenu false [] 0)).
Proof.
  apply (menu_follows_flag true
           [DocumentClick false; ToggleClick; DocumentClick true]
           (tciMoamoaApp, mkMenu false [] 0)).
  right. reflexivity.
Defined.

(** X12.  Two clicks on the toggle button bring a menu that is in step
    back to where it was (application object, visibility, icon), and a
    click on a menu link closes the menu whatever its state was. *)
Theorem toggle_twice_and_link (lucide : bool) (s : App * MenuDom)
        (H : menuSynced s) :
  fst (menuRun lucide [ToggleClick; ToggleClick] s) = fst s /\
  menuHidden (snd (menuRun lucide [ToggleClick; ToggleClick] s)) =
    menuHidden (snd s) /\
  toggleHtml (snd (menuRun lucide [ToggleClick; ToggleClick] s)) =
    toggleHtml (snd s) /\
  tciMobileMenuOpen (fst (menuRun lucide [ToggleClick] s)) =
    negb (tciMobileMenuOpen (fst s)) /\
  tciMobileMenuOpen (fst (menuRun lucide [MenuLinkClick] s)) = false /\
  menuHidden (snd (menuRun lucide [MenuLinkClick] s)) = true.
Proof.
  destruct s as [[o ms ty] [h html n]]. destruct H as [Hh Hi].
  simpl in Hh, Hi. subst h html.
  destruct o, lucide; simpl; repeat split.
Qed.

Lemma toggle_twice_and_link_witness :
  fst (menuRun true [ToggleClick; ToggleClick]
         (menuRun true [MenuLinkClick] (tciMoamoaApp, mkMenu false [] 0))) =
  fst (menuRun true [MenuLinkClick] (tciMoamoaApp, mkMenu false [] 0)).
Proof.
  apply (toggle_twice_and_link true
           (menuRun true [MenuLinkClick] (tciMoamoaApp, mkMenu false [] 0))).
  split; reflexivity.
Defined.

(** X13.  The chat and the menu share [tciMoamoaApp] without touching
    each other's fields: no run of chat events changes
    [tciMobileMenuOpen], and no run of menu events changes the messages
    or the typing flag. *)
Theorem chat_and_menu_apart (es : list Event) (p p' : Page)
        (lucide : bool) (mes : list MenuEvent) (s : App * MenuDom)
        (Hrun : run es p = Some p') :
  tciMobileMenuOpen (app p') = tciMobileMenuOpen (app p) /\
  tciChatMessages (fst (menuRun lucide mes s)) = tciChatMessages (fst s) /\
  tciIsTyping (fst (menuRun lucide mes s)) = tciIsTyping (fst s).
Proof.
  split.
  - apply (run_invariant
             (fun q => tciMobileMenuOpen (app q) = tciMobileMenuOpen (app p)))
      with (es := es) (p := p); [|exact Hrun|reflexivity].
    clear. intros e q q' E H.
    assert (S : forall now t,
               tciMobileMenuOpen (app (tciHandleChatSend now t q)) =
               tciMobileMenuOpen (app q)).
    { intros now t. unfold tciHandleChatSend.
      now destruct (negb _ || _). }
    destruct e as [now l | now l | now t | | now]; simpl in E.
    + injection E as <-. unfold onQuickInputClick. now rewrite S.
    + injection E as <-. unfold onChatSendClick.
      destruct (truthy _); [now rewrite S | exact H].
    + injection E as <-. now rewrite S.
    + injection E as <-. exact H.
    + unfold fire in E. destruct (timers q); [discriminate|].
      injection E as <-. exact H.
  - unfold menuRun. revert s.
    induction mes as [|e mes IH]; intros s; simpl; [now split|].
    destruct (IH (menuStep lucide e s)) as [-> ->].
    destruct e as [| | i]; simpl; [now split | now split |].
    unfold tciInitMobileMenu.onDocumentClick. now destruct (negb i).
Qed.

Lemma chat_and_menu_apart_witness :
  tciMobileMenuOpen
    (app (tciHandleChatSend 1700000000000 quickLabel ready)) =
    tciMobileMenuOpen (app ready) /\
  tciChatMessages (fst (menuRun true [ToggleClick; MenuLinkClick]
                                (app ready, mkMenu true [] 0))) =
    tciChatMessages (fst (app ready, mkMenu true [] 0)) /\
  tciIsTyping (fst (menuRun true [ToggleClick; MenuLinkClick]
                            (app ready, mkMenu true [] 0))) =
    tciIsTyping (fst (app ready, mkMenu true [] 0)).
Proof.
  apply (chat_and_menu_apart [CallHandleChatSend 1700000000000 quickLabel]
                             ready). reflexivity.
Defined.

(** ** The policy modal *)

Lemma open_done (d : Global PolicyData) (lucide : bool) (ty : jsstring)
      (m m' : Modal) :
  tciInitPolicyModal.tciOpenModal d lucide ty m = Done m' ->
  modalHidden m' = false /\ bodyOverflow m' = lit "hidden".
Proof.
  unfold tciInitPolicyModal.tciOpenModal. cbv zeta.
  destruct d; intros H; try discriminate H; injection H as <-; now split.
Qed.

Lemma scrollLock_step (d : Global PolicyData) (lucide : bool)
      (e : ModalEvent) (m : Modal) :
  scrollLockSynced m -> scrollLockSynced (onModalEvent d lucide e m).
Proof.
  intros H. destruct e; simpl.
  - destruct (tciInitPolicyModal.tciOpenModal d lucide _ m) as [m'|] eqn:E;
      [|exact H].
    destruct (open_done d lucide _ m m' E) as [A B].
    unfold scrollLockSynced. now rewrite A, B.
  - destruct (tciInitPolicyModal.tciOpenModal d lucide _ m) as [m'|] eqn:E;
      [|exact H].
    destruct (open_done d lucide _ m m' E) as [A B].
    unfold scrollLockSynced. now rewrite A, B.
  - reflexivity.
Qed.

(** X14.  Whatever the policy data, and through any clicks on the two
    links and the three closing buttons, the page behind the modal is
    barred from scrolling exactly while the modal is shown: the handlers
    keep [body.style.overflow] in step with the class [hidden]. *)
Theorem modal_scroll_lock (d : Global PolicyData) (lucide : bool)
        (es : list ModalEvent) (m : Modal)
        (H : scrollLockSynced m) :
  scrollLockSynced (modalRun d lucide es m).
Proof.
  unfold modalRun. revert m H.
  induction es as [|e es IH]; intros m H; simpl; [exact H|].
  apply IH. now apply scrollLock_step.
Qed.

Lemma modal_scroll_lock_witness :
  scrollLockSynced
    (modalRun (Object (mkPolicy (lit "terms text") (lit "privacy text")))
              true [OpenTermsClick; CloseClick; OpenPrivacyClick]
              (mkModal [] [] true (lit "unset") 0)).
Proof.
  apply (modal_scroll_lock
           (Object (mkPolicy (lit "terms text") (lit "privacy text")))
           true [OpenTermsClick; CloseClick; OpenPrivacyClick]
           (mkModal [] [] true (lit "unset") 0)).
  reflexivity.
Defined.

(** X15.  [tciOpenModal] throws exactly when the policy global is
    [null].  On such a page no click ever shows the modal or changes
    its title or content; the closing buttons still work. *)
Theorem null_policy_never_opens (d : Global PolicyData) (lucide : bool)
        (ty : jsstring) (es : list ModalEvent) (m : Modal) :
  (tciInitPolicyModal.tciOpenModal d lucide ty m = TypeError <-> d = Null) /\
  modalTitle (modalRun Null lucide es m) = modalTitle m /\
  modalContent (modalRun Null lucide es m) = modalContent m /\
  (modalHidden m = true -> modalHidden (modalRun Null lucide es m) = true).
Proof.
  split.
  - unfold tciInitPolicyModal.tciOpenModal. cbv zeta.
    destruct d; split; intros H; try discriminate H; reflexivity.
  - unfold modalRun. revert m.
    induction es as [|e es IH]; intros m; simpl; [now repeat split|].
    destruct (IH (onModalEvent Null lucide e m)) as [-> [-> Hh]].
    destruct e; simpl; repeat split; auto.
Qed.

Lemma null_policy_never_opens_witness :
  modalHidden
    (modalRun Null true [OpenTermsClick; CloseClick; OpenPrivacyClick]
              (mkModal [] [] true (lit "unset") 0)) = true.
Proof.
  apply (null_policy_never_opens Null true []
           [OpenTermsClick; CloseClick; OpenPrivacyClick]
           (mkModal [] [] true (lit "unset") 0)).
  reflexivity.
Defined.

(** X16.  With the policy data defined, the modal shows after a click
    on a link the title and the text of that link's kind, whatever it
    showed before; closing hides it and keeps both. *)
Theorem modal_shows_last_opened (pd : PolicyData) (lucide : bool)
        (es : list ModalEvent) (m : Modal) :
  let shown e := modalRun (Object pd) lucide (es ++ [e]) m in
  (modalTitle (shown OpenTermsClick) = lit "이용약관" /\
   modalContent (shown OpenTermsClick) = terms pd /\
   modalHidden (shown OpenTermsClick) = false) /\
  (modalTitle (shown OpenPrivacyClick) = lit "개인정보처리방침" /\
   modalContent (shown OpenPrivacyClick) = privacy pd /\
   modalHidden (shown OpenPrivacyClick) = false) /\
  (modalTitle (shown CloseClick) =
     modalTitle (modalRun (Object pd) lucide es m) /\
   modalContent (shown CloseClick) =
     modalContent (modalRun (Object pd) lucide es m) /\
   modalHidden (shown CloseClick) = true).
Proof.
  cbv zeta. unfold modalRun. rewrite !fold_left_app. simpl.
  repeat split.
Qed.
